(** * Apollo staking simulation ([src/scripts/simulation.py])

    A shallow embedding of [simulate_apollo] and the properties of its
    staking rule and step loop.

    Python's [float] is IEEE 754 binary64.  Its values and operations are
    taken from the Standard Library's executable specification
    ([SpecFloat], precision 53, maximal exponent 1024), so every number
    below is the exact double the interpreter computes with, rounding
    included. *)

From Stdlib Require Import ZArith Arith Bool List String Ascii Lia.
From Stdlib Require Import Floats.SpecFloat DecimalString.
Import ListNotations.

Local Open Scope Z_scope.

(** ** Binary64 arithmetic as Python performs it *)

Module F64.

Definition prec : Z := 53.
Definition emax : Z := 1024.

Definition t : Set := spec_float.

Definition add : t -> t -> t := SFadd prec emax.
Definition sub : t -> t -> t := SFsub prec emax.
Definition mul : t -> t -> t := SFmul prec emax.
Definition div : t -> t -> t := SFdiv prec emax.
Definition neg : t -> t := SFopp.
Definition abs : t -> t := SFabs.

(** [x < y], [x <= y], [x == y]; all three are false on a NaN. *)
Definition ltb : t -> t -> bool := SFltb.
Definition leb : t -> t -> bool := SFleb.
Definition eqb : t -> t -> bool := SFeqb.

Definition is_nan (x : t) : bool :=
  match x with S754_nan => true | _ => false end.

Definition is_finite (x : t) : bool :=
  match x with S754_zero _ | S754_finite _ _ _ => true | _ => false end.

(** [float(n)] for an integer [n]. *)
Definition of_Z (n : Z) : t := binary_normalize prec emax n 0 false.

(** The double denoted by the decimal literal [n / 10^k], for [n] and
    [10^k] below [2^53]: the quotient of two exactly represented integers,
    correctly rounded. *)
Definition lit (n : Z) (k : Z) : t := div (of_Z n) (of_Z (10 ^ k)).

(** Nearest integer to [n / d] for [d > 0], ties to the even one. *)
Definition round_half_even (n d : Z) : Z :=
  let q := n / d in
  match (2 * (n mod d) ?= d) with
  | Lt => q
  | Gt => q + 1
  | Eq => if Z.even q then q else q + 1
  end.

(** The builtin [round(x, 2)] on a float, as CPython computes it:
    the exact value of [x] is rounded to two decimals (ties to even) and
    the decimal obtained is converted back to the nearest double; the sign
    of [x] is kept, and infinities and NaN are returned unchanged. *)
Definition round2 (x : t) : t :=
  match x with
  | S754_finite s m e =>
      let h := round_half_even (Zpos m * 100 * 2 ^ Z.max e 0)
                               (2 ^ Z.max (- e) 0) in
      match h with
      | Zpos p => div (S754_finite s p 0) (S754_finite false 100 0)
      | _ => S754_zero s
      end
  | _ => x
  end.

End F64.

Definition f64 : Set := F64.t.

(** ** The program *)

(** The two contract names the loop assigns to [contract]. *)
Inductive Contract : Set := U8 | U4.

Definition base_stake : f64 := F64.lit 10 1.
Definition payout_u8 : f64 := F64.lit 19 2.
Definition payout_u4 : f64 := F64.lit 120 2.
Definition min_stake : f64 := F64.lit 35 2.

Definition conservador : string := "conservador".

(** [profit_pct = 0.02 if mode == 'conservador' else 0.15] *)
Definition profit_pct (mode : string) : f64 :=
  if String.eqb mode conservador then F64.lit 2 2 else F64.lit 15 2.

(** The three variables the loop updates. *)
Record State : Set := mkState {
  balance : f64;
  loss_streak : nat;
  accumulated_loss : f64
}.

Definition init_state : State :=
  {| balance := F64.of_Z 0; loss_streak := 0; accumulated_loss := F64.of_Z 0 |}.

(** One dictionary appended to [history]. *)
Record Entry : Set := mkEntry {
  e_step : nat;
  e_contract : Contract;
  e_stake : f64;
  e_balance : f64;
  e_acc_loss : f64
}.

(** The [else] branch of the staking rule, before the floor. *)
Definition recovery_raw (pct acc : f64) : f64 :=
  let target := F64.mul acc (F64.add (F64.of_Z 1) pct) in
  let required_profit := target in
  F64.round2 (F64.div required_profit payout_u4).

Definition recovery_stake (pct acc : f64) : f64 :=
  let current_stake := recovery_raw pct acc in
  if F64.ltb current_stake min_stake then min_stake else current_stake.

(** The [if]/[elif]/[else] that picks [contract] and [current_stake]. *)
Definition decide (pct : f64) (streak : nat) (acc : f64) : Contract * f64 :=
  match streak with
  | O => (U8, base_stake)
  | S O => (U8, base_stake)
  | _ => (U4, recovery_stake pct acc)
  end.

(** The block under [# Simulate LOSS]. *)
Definition apply_loss (st : State) (current_stake : f64) : State :=
  let loss_amount := current_stake in
  {| balance := F64.sub (balance st) loss_amount;
     loss_streak := S (loss_streak st);
     accumulated_loss := F64.add (accumulated_loss st) loss_amount |}.

(** One pass through the loop body, up to the [append]. *)
Definition step (pct : f64) (i : nat) (st : State) : State * Entry :=
  let '(contract, current_stake) :=
    decide pct (loss_streak st) (accumulated_loss st) in
  let st' := apply_loss st current_stake in
  (st', {| e_step := i; e_contract := contract; e_stake := current_stake;
           e_balance := balance st'; e_acc_loss := accumulated_loss st' |}).

(** The test that guards [break]: [abs(balance) >= stop_loss]. *)
Definition stop_hit (stop_loss : f64) (st : State) : bool :=
  F64.leb stop_loss (F64.abs (balance st)).

(** How the loop was left: by [break] or by running out of
    [range(1, 20)]. *)
Inductive Status : Set := StoppedOut | MaxStepsReached.

(** What a call leaves: the list [history], the last values of the loop
    variables and, when the [break] was taken, the step number and the
    value of [abs(balance)] given to the two lines printed before it
    (the stop-loss notice and the total invested). *)

Record Session : Set := mkSession {
  history : list Entry;
  final : State;
  status : Status;
  stop_step : option nat;
  total_invested : option f64
}.

Fixpoint run (stop_loss pct : f64) (steps : list nat) (st : State)
    (hist : list Entry) : Session :=
  match steps with
  | [] => mkSession hist st MaxStepsReached None None
  | i :: rest =>
      let '(st', entry) := step pct i st in
      let hist' := hist ++ [entry] in
      if stop_hit stop_loss st'
      then mkSession hist' st' StoppedOut (Some i)
                     (Some (F64.abs (balance st')))
      else run stop_loss pct rest st' hist'
  end.

(** [range(1, 20)] *)
Definition step_range : list nat := seq 1 19.

Definition simulate_apollo (stop_loss : f64) (mode : string) : Session :=
  run stop_loss (profit_pct mode) step_range init_state [].

(** ** Notions used to state the properties *)

(** The states and entries of a session that is never stopped. *)
Fixpoint trace (pct : f64) (steps : list nat) (st : State)
    : list (State * Entry) :=
  match steps with
  | [] => []
  | i :: rest =>
      let p := step pct i st in
      p :: trace pct rest (fst p)
  end.

(** [abs(balance) >= stop_loss], read off a ledger entry. *)
Definition crossed (stop_loss : f64) (e : Entry) : bool :=
  F64.leb stop_loss (F64.abs (e_balance e)).

(** A relation that holds between every entry and the next one. *)
Fixpoint chain (R : Entry -> Entry -> Prop) (l : list Entry) : Prop :=
  match l with
  | e1 :: (e2 :: _) as tl => R e1 e2 /\ chain R tl
  | _ => True
  end.

(** [accumulated_loss == -balance] *)
Definition mirrored (bal acc : f64) : Prop := F64.eqb acc (F64.neg bal) = true.

(** Between two consecutive entries of the unstopped ledger: a recovery
    stake is computed from the accumulated loss the previous entry left,
    and a recovery stake is followed by a strictly larger one. *)
Definition grows (pct : f64) (e1 e2 : Entry) : Prop :=
  (e_contract e2 = U4 -> e_stake e2 = recovery_stake pct (e_acc_loss e1))
  /\ (e_contract e1 = U4 ->
      e_contract e2 = U4 /\ F64.ltb (e_stake e1) (e_stake e2) = true).

(** The number of entries of a ledger up to and including the first one
    that reaches the stop loss. *)
Fixpoint len_until (stop_loss : f64) (l : list Entry) : nat :=
  match l with
  | [] => O
  | e :: tl => if crossed stop_loss e then 1%nat else S (len_until stop_loss tl)
  end.

(** ** The printed table *)

(** The string held by [contract]. *)
Definition contract_name (c : Contract) : string :=
  match c with U8 => "U8" | U4 => "U4" end.

Fixpoint spaces (n : nat) : string :=
  match n with
  | O => EmptyString
  | S k => String " " (spaces k)
  end.

(** The format [<width]: left-aligned, padded with spaces, never cut. *)
Definition ljust (width : nat) (s : string) : string :=
  String.append s (spaces (width - String.length s)).

(** [str(n)] for a non-negative integer. *)
Definition decimal (n : Z) : string :=
  NilZero.string_of_uint (N.to_uint (Z.to_N n)).

Definition digit (d : Z) : string :=
  String (ascii_of_nat (48 + Z.to_nat d)) EmptyString.

(** The magnitude [m * 2^e] in hundredths, rounded to the nearest integer
    with ties to even: the digits that both [round(x, 2)] and the format
    [.2f] keep. *)
Definition hundredths (m : positive) (e : Z) : Z :=
  F64.round_half_even (Zpos m * 100 * 2 ^ Z.max e 0) (2 ^ Z.max (- e) 0).

(** The amount a float is displayed as, in signed hundredths. *)
Definition cents (x : f64) : Z :=
  match x with
  | S754_finite s m e => if s then - hundredths m e else hundredths m e
  | _ => 0
  end.

(** The format [.2f] of a float. *)
Definition fmt_2f (x : f64) : string :=
  match x with
  | S754_nan => "nan"
  | S754_infinity s => if s then "-inf" else "inf"
  | S754_zero s => if s then "-0.00" else "0.00"
  | S754_finite s m e =>
      let h := hundredths m e in
      String.append (if s then "-" else "")
        (String.append (decimal (h / 100))
           (String.append "."
              (String.append (digit (h mod 100 / 10)) (digit (h mod 10)))))
  end%string.

Definition bar : string := " | ".

(** The line printed for a step:
    [{i:<3} | {contract:<10} | {current_stake:<10.2f} | {'LOSS':<10} |
     {balance:<12.2f} | {accumulated_loss:<12.2f}]. *)
Definition row_line (e : Entry) : string :=
  String.concat bar
    [ ljust 3 (decimal (Z.of_nat (e_step e)));
      ljust 10 (contract_name (e_contract e));
      ljust 10 (fmt_2f (e_stake e));
      ljust 10 "LOSS";
      ljust 12 (fmt_2f (e_balance e));
      ljust 12 (fmt_2f (e_acc_loss e)) ].

(** The line printed before the [break]. *)
Definition total_line (x : f64) : string :=
  String.append "Total Investido: $" (fmt_2f x).

(** The rows a call prints, one after each [append] to [history]. *)
Definition printed_rows (s : Session) : list string :=
  map row_line (history s).

(** The call at the end of the script: [simulate_apollo()] with the
    defaults [stop_loss=50.0] and [mode='conservador']. *)
Definition script_run : Session :=
  simulate_apollo (F64.lit 500 1) "conservador".

(** Proves [Forall P l] for a closed list [l]: the list is evaluated, then
    [P] is evaluated at each of its elements. *)
Ltac forall_by_evaluation :=
  match goal with
  | |- Forall ?P ?l =>
      let l' := eval vm_compute in l in
      replace l with l' by (vm_compute; reflexivity)
  end;
  repeat (apply Forall_cons; [vm_compute; repeat split; reflexivity | ]);
  apply Forall_nil.

(** ** Facts about binary64 rounding and comparison *)

Section Rounding.

Variables prec emax : Z.

Lemma iter_pos_preserves {A : Type} (f : A -> A) (P : A -> Prop) :
  (forall x, P x -> P (f x)) ->
  forall n x, P x -> P (iter_pos f n x).
Proof.
  intros Hf n; induction n as [n IH | n IH | ]; simpl; intros x Hx; auto.
Qed.

Lemma shr_1_nonneg (mrs : shr_record) :
  0 <= shr_m mrs -> 0 <= shr_m (shr_1 mrs).
Proof.
  destruct mrs as [m r s]; simpl.
  destruct m as [ | [p | p | ] | p ]; simpl; lia.
Qed.

Lemma shr_nonneg (mrs : shr_record) (e n : Z) :
  0 <= shr_m mrs -> 0 <= shr_m (fst (shr mrs e n)).
Proof.
  intros H; destruct n as [ | p | p ]; simpl; auto.
  apply iter_pos_preserves; auto using shr_1_nonneg.
Qed.

Lemma shr_fexp_nonneg (m e : Z) (l : location) :
  0 <= m -> 0 <= shr_m (fst (shr_fexp prec emax m e l)).
Proof.
  intros H; unfold shr_fexp; apply shr_nonneg.
  destruct l as [ | [ | | ] ]; simpl; assumption.
Qed.

Lemma round_nearest_even_nonneg (m : Z) (l : location) :
  0 <= m -> 0 <= round_nearest_even m l.
Proof.
  intros H; destruct l as [ | [ | | ] ]; simpl; try lia.
  destruct (Z.even m); lia.
Qed.

(** Rounding a non-negative significand gives a zero, a finite number
    or an infinity. *)
Lemma binary_round_aux_not_nan (s : bool) (m e : Z) (l : location) :
  0 <= m -> F64.is_nan (binary_round_aux prec emax s m e l) = false.
Proof.
  intros H; unfold binary_round_aux.
  pose proof (shr_fexp_nonneg m e l H) as H1.
  destruct (shr_fexp prec emax m e l) as [mrs1 e1]; simpl in H1.
  pose proof (shr_fexp_nonneg _ e1 loc_Exact
                (round_nearest_even_nonneg _ (loc_of_shr_record mrs1) H1)) as H2.
  destruct (shr_fexp prec emax _ e1 loc_Exact) as [mrs2 e2]; simpl in H2.
  destruct (shr_m mrs2) as [ | p | p ]; simpl; try reflexivity; try lia.
  destruct (e2 <=? emax - prec); reflexivity.
Qed.

(** The sign given to the rounding only sets the sign of its result. *)
Lemma binary_round_aux_opp (s : bool) (m e : Z) (l : location) :
  binary_round_aux prec emax (negb s) m e l
  = SFopp (binary_round_aux prec emax s m e l).
Proof.
  unfold binary_round_aux.
  destruct (shr_fexp prec emax m e l) as [mrs1 e1].
  destruct (shr_fexp prec emax _ e1 loc_Exact) as [mrs2 e2].
  destruct (shr_m mrs2); simpl; try reflexivity.
  destruct (e2 <=? emax - prec); reflexivity.
Qed.

Lemma mul_not_nan (x : spec_float) (s : bool) (m : positive) (e : Z) :
  F64.is_nan x = false ->
  F64.is_nan (SFmul prec emax x (S754_finite s m e)) = false.
Proof.
  destruct x as [sx | sx | | sx mx ex]; simpl; intros H;
    try reflexivity; try discriminate.
  apply binary_round_aux_not_nan; lia.
Qed.

Lemma div_core_nonneg (m1 m2 : positive) (e1 e2 : Z) :
  0 <= fst (fst (SFdiv_core_binary prec emax (Zpos m1) e1 (Zpos m2) e2)).
Proof.
  unfold SFdiv_core_binary.
  set (s := _ - _ - _).
  set (m' := match s with Zpos _ => Z.shiftl (Zpos m1) s
                        | Z0 => Zpos m1 | Zneg _ => 0 end).
  assert (Hm : 0 <= m').
  { subst m'; destruct s; try lia. apply Z.shiftl_nonneg; lia. }
  pose proof (Z.div_pos m' (Zpos m2) Hm eq_refl) as Hq.
  unfold Z.div in Hq.
  destruct (Z.div_eucl m' (Zpos m2)) as [q r]; simpl; exact Hq.
Qed.

Lemma div_finite_not_nan (sx sy : bool) (mx my : positive) (ex ey : Z) :
  F64.is_nan (SFdiv prec emax (S754_finite sx mx ex) (S754_finite sy my ey))
  = false.
Proof.
  unfold SFdiv.
  pose proof (div_core_nonneg mx my ex ey) as H.
  destruct (SFdiv_core_binary prec emax (Zpos mx) ex (Zpos my) ey)
    as [[mz ez] lz]; simpl in H.
  apply binary_round_aux_not_nan; exact H.
Qed.

Lemma div_not_nan (x : spec_float) (s : bool) (m : positive) (e : Z) :
  F64.is_nan x = false ->
  F64.is_nan (SFdiv prec emax x (S754_finite s m e)) = false.
Proof.
  destruct x as [sx | sx | | sx mx ex]; intros H;
    try reflexivity; try discriminate.
  apply div_finite_not_nan.
Qed.

End Rounding.

Lemma round2_not_nan (x : f64) :
  F64.is_nan x = false -> F64.is_nan (F64.round2 x) = false.
Proof.
  destruct x as [s | s | | s m e]; simpl; intros H;
    try reflexivity; try discriminate.
  destruct (F64.round_half_even _ _); try reflexivity.
  apply div_finite_not_nan.
Qed.

(** On numbers, [x < y] is the negation of [y <= x]. *)
Lemma ltb_negb_leb (x y : f64) :
  F64.is_nan x = false -> F64.is_nan y = false ->
  F64.ltb x y = negb (F64.leb y x).
Proof.
  unfold F64.ltb, F64.leb, SFltb, SFleb.
  destruct x as [sx | sx | | sx mx ex], y as [sy | sy | | sy my ey];
    simpl; intros Hx Hy; try discriminate; try reflexivity;
    try (destruct sx; reflexivity); try (destruct sy; reflexivity);
    try (destruct sx, sy; reflexivity).
  rewrite (Z.compare_antisym ex ey), !Pos.compare_cont_spec.
  rewrite (Pos.compare_antisym mx my); simpl.
  destruct sx, sy; try reflexivity;
    destruct (ex ?= ey); simpl; try reflexivity;
    destruct (mx ?= my)%positive; reflexivity.
Qed.

Lemma eqb_refl (x : f64) : F64.is_nan x = false -> F64.eqb x x = true.
Proof.
  unfold F64.eqb, SFeqb.
  destruct x as [s | s | | s m e]; simpl; intros H;
    try reflexivity; try discriminate.
  - destruct s; reflexivity.
  - rewrite Z.compare_refl, Pos.compare_cont_refl. destruct s; reflexivity.
Qed.

(** The model of [round(x, 2)] on the documented cases: 2.675 is stored
    below its decimal value and goes to 2.67; 0.125 and 0.375 are exact
    ties and go to the even 0.12 and 0.38; a tiny negative goes to -0.0. *)
Example round2_cases :
  F64.round2 (F64.lit 2675 3) = F64.lit 267 2
  /\ F64.round2 (F64.lit 125 3) = F64.lit 12 2
  /\ F64.round2 (F64.lit 375 3) = F64.lit 38 2
  /\ F64.round2 (F64.lit 1005 3) = F64.of_Z 1
  /\ F64.round2 (F64.neg (F64.lit 1 3)) = S754_zero true
  /\ F64.round2 (F64.of_Z (10 ^ 22)) = F64.of_Z (10 ^ 22).
Proof. vm_compute; repeat split; reflexivity. Qed.

(** The constants of the program as binary64 bit patterns. *)
Example literals :
  F64.lit 10 1 = S754_finite false 0x10000000000000 (-52)
  /\ F64.lit 120 2 = S754_finite false 0x13333333333333 (-52)
  /\ F64.lit 35 2 = S754_finite false 0x16666666666666 (-54)
  /\ F64.lit 2 2 = S754_finite false 0x147ae147ae147b (-58)
  /\ F64.lit 15 2 = S754_finite false 0x13333333333333 (-55).
Proof. vm_compute; repeat split; reflexivity. Qed.

(** [x == y] holds between two zeros of any signs, and otherwise only
    between a number and itself. *)
Lemma eqb_true_cases (x y : f64) :
  F64.eqb x y = true ->
  (exists s1 s2, x = S754_zero s1 /\ y = S754_zero s2)
  \/ (x = y /\ F64.is_nan x = false).
Proof.
  unfold F64.eqb, SFeqb.
  destruct x as [sx | sx | | sx mx ex], y as [sy | sy | | sy my ey];
    simpl; intros H; try discriminate;
    try (destruct sx; discriminate); try (destruct sy; discriminate).
  - left; eauto.
  - right; destruct sx, sy; try discriminate; auto.
  - right.
    assert (He : ex = ey /\ mx = my).
    { rewrite Pos.compare_cont_spec in H; simpl in H.
      destruct sx, sy; try discriminate;
        destruct (Z.compare_spec ex ey); try discriminate;
        destruct (Pos.compare_spec mx my); try discriminate; auto. }
    destruct He as [-> ->].
    destruct sx, sy; try discriminate; auto.
Qed.

Lemma binary_round_not_nan (s : bool) (m : positive) (e : Z) :
  F64.is_nan (binary_round F64.prec F64.emax s m e) = false.
Proof.
  unfold binary_round.
  destruct (shl_align m e _) as [mz ez].
  apply binary_round_aux_not_nan; lia.
Qed.

Lemma binary_round_opp (s : bool) (m : positive) (e : Z) :
  binary_round F64.prec F64.emax (negb s) m e
  = SFopp (binary_round F64.prec F64.emax s m e).
Proof.
  unfold binary_round.
  destruct (shl_align m e _) as [mz ez].
  apply binary_round_aux_opp.
Qed.

(** Rounding an integer and rounding its opposite give opposite
    results. *)
Lemma binary_normalize_opp (z e : Z) :
  F64.eqb (binary_normalize F64.prec F64.emax (- z) e false)
          (F64.neg (binary_normalize F64.prec F64.emax z e false)) = true.
Proof.
  destruct z as [ | p | p]; simpl.
  - reflexivity.
  - change true with (negb false) at 1. rewrite binary_round_opp.
    apply eqb_refl. unfold F64.neg.
    rewrite <- (binary_round_opp false). apply binary_round_not_nan.
  - unfold F64.neg. rewrite <- (binary_round_opp true); simpl.
    apply eqb_refl, binary_round_not_nan.
Qed.

(** The inductive step of the ledger invariant: a loss of any finite
    stake keeps [accumulated_loss == -balance]. *)
Lemma loss_keeps_mirror (bal acc k : f64) :
  F64.is_finite k = true ->
  mirrored bal acc ->
  mirrored (F64.sub bal k) (F64.add acc k).
Proof.
  unfold mirrored; intros Hk H.
  destruct (eqb_true_cases _ _ H) as [(s1 & s2 & -> & Hb) | (-> & Hn)].
  - destruct bal as [sb | sb | | sb mb eb]; try discriminate.
    destruct k as [sk | sk | | sk mk ek]; try discriminate.
    + destruct s1, sb, sk; reflexivity.
    + unfold F64.add, F64.sub, F64.neg; simpl.
      rewrite negb_involutive. apply eqb_refl; reflexivity.
  - destruct bal as [sb | sb | | sb mb eb]; try discriminate.
    + destruct k as [sk | sk | | sk mk ek]; try discriminate.
      * destruct sb, sk; reflexivity.
      * unfold F64.add, F64.sub, F64.neg; simpl.
        rewrite negb_involutive. apply eqb_refl; reflexivity.
    + destruct k as [sk | sk | | sk mk ek]; try discriminate;
        destruct sb; reflexivity.
    + destruct k as [sk | sk | | sk mk ek]; try discriminate.
      * unfold F64.add, F64.sub, F64.neg; simpl. apply eqb_refl; reflexivity.
      * unfold F64.add, F64.sub, F64.neg, SFadd, SFsub.
        cbn [SFopp].
        set (ez := Z.min eb ek).
        set (X := Zpos (fst (shl_align mb eb ez))).
        set (Y := Zpos (fst (shl_align mk ek ez))).
        clearbody X Y.
        replace (cond_Zopp (negb sb) X + cond_Zopp sk Y)
          with (- (cond_Zopp sb X - cond_Zopp sk Y))
          by (unfold cond_Zopp; destruct sb, sk; cbn [negb]; lia).
        apply binary_normalize_opp.
Qed.

(** ** The staking rule *)

Lemma profit_pct_cases (mode : string) :
  profit_pct mode = F64.lit 2 2 \/ profit_pct mode = F64.lit 15 2.
Proof.
  unfold profit_pct; destruct (String.eqb mode conservador); auto.
Qed.

Lemma payout_u4_finite : exists m e, payout_u4 = S754_finite false m e.
Proof. do 2 eexists; vm_compute; reflexivity. Qed.

Lemma growth_factor_finite (mode : string) :
  exists m e, F64.add (F64.of_Z 1) (profit_pct mode) = S754_finite false m e.
Proof.
  destruct (profit_pct_cases mode) as [-> | ->];
    do 2 eexists; vm_compute; reflexivity.
Qed.

(** The rounded recovery stake of a number is a number. *)
Lemma recovery_raw_not_nan (mode : string) (acc : f64) :
  F64.is_nan acc = false ->
  F64.is_nan (recovery_raw (profit_pct mode) acc) = false.
Proof.
  intros H; unfold recovery_raw.
  destruct (growth_factor_finite mode) as (m & e & ->).
  destruct payout_u4_finite as (m' & e' & ->).
  apply round2_not_nan, div_not_nan, mul_not_nan, H.
Qed.

(** C4: a step taken with [loss_streak] 0 or 1 bets on the normal
    contract U8 with a stake equal to [base_stake]; the first loss does not
    engage the recovery. *)
Theorem C4_base_stake_until_second_loss :
  forall (pct : f64) (i : nat) (st : State),
    (loss_streak st = 0 \/ loss_streak st = 1)%nat ->
    decide pct (loss_streak st) (accumulated_loss st) = (U8, base_stake)
    /\ e_contract (snd (step pct i st)) = U8
    /\ e_stake (snd (step pct i st)) = base_stake.
Proof.
  intros pct i st H; unfold step.
  destruct H as [-> | ->]; simpl; auto.
Qed.

Lemma C4_witness :
  let st := mkState (F64.neg base_stake) 1 base_stake in
  (loss_streak st = 0 \/ loss_streak st = 1)%nat
  /\ e_stake (snd (step (F64.lit 2 2) 2 st)) = base_stake.
Proof.
  split; [right; reflexivity | ].
  apply (C4_base_stake_until_second_loss (F64.lit 2 2) 2
           (mkState (F64.neg base_stake) 1 base_stake)).
  right; reflexivity.
Defined.

(** C1: a step taken with [loss_streak >= 2] on a numeric accumulated loss
    bets on the recovery contract U4; with [r] the value
    [round(accumulated_loss * (1 + profit_pct) / payout_u4, 2)], the stake
    is [r] when [r >= 0.35] and 0.35 otherwise, hence at least 0.35, and
    [r = 0.10] gives 0.35; [profit_pct] is 0.02 for mode 'conservador' and
    0.15 otherwise, and [payout_u4] is 1.20.  No session reaches an
    accumulated loss that is not a number
    ([session_accumulated_loss_numeric]). *)
Theorem C1_recovery_stake :
  forall (mode : string) (i : nat) (st : State),
    (2 <= loss_streak st)%nat ->
    F64.is_nan (accumulated_loss st) = false ->
    let pct := if String.eqb mode "conservador"
               then F64.lit 2 2 else F64.lit 15 2 in
    let r := F64.round2
               (F64.div (F64.mul (accumulated_loss st)
                                 (F64.add (F64.of_Z 1) pct))
                        (F64.lit 120 2)) in
    let entry := snd (step (profit_pct mode) i st) in
    e_contract entry = U4
    /\ e_stake entry = (if F64.leb (F64.lit 35 2) r then r else F64.lit 35 2)
    /\ F64.leb (F64.lit 35 2) (e_stake entry) = true
    /\ (r = F64.lit 10 2 -> e_stake entry = F64.lit 35 2).
Proof.
  intros mode i st Hs Hn pct r entry.
  assert (Hr : r = recovery_raw (profit_pct mode) (accumulated_loss st))
    by reflexivity.
  assert (He : entry = mkEntry i U4
                 (recovery_stake (profit_pct mode) (accumulated_loss st))
                 (F64.sub (balance st)
                    (recovery_stake (profit_pct mode) (accumulated_loss st)))
                 (F64.add (accumulated_loss st)
                    (recovery_stake (profit_pct mode) (accumulated_loss st)))).
  { subst entry; unfold step, decide.
    destruct (loss_streak st) as [ | [ | n ] ]; try lia; reflexivity. }
  assert (Hk : e_stake entry
               = if F64.leb (F64.lit 35 2) r then r else F64.lit 35 2).
  { rewrite He; simpl; unfold recovery_stake; rewrite <- Hr.
    fold min_stake.
    rewrite ltb_negb_leb;
      [ | rewrite Hr; apply recovery_raw_not_nan, Hn | reflexivity ].
    destruct (F64.leb min_stake r); reflexivity. }
  split; [rewrite He; reflexivity | split; [exact Hk | split] ].
  - rewrite Hk. destruct (F64.leb (F64.lit 35 2) r) eqn:Hle;
      [exact Hle | reflexivity].
  - intros H10; rewrite Hk, H10; reflexivity.
Qed.

Lemma C1_witness :
  let st := mkState (F64.neg (F64.lit 12 2)) 2 (F64.lit 12 2) in
  let entry := snd (step (profit_pct "conservador") 3 st) in
  e_contract entry = U4 /\ e_stake entry = F64.lit 35 2.
Proof.
  destruct (C1_recovery_stake "conservador" 3
              (mkState (F64.neg (F64.lit 12 2)) 2 (F64.lit 12 2)))
    as (Hc & _ & _ & H10).
  - simpl; lia.
  - reflexivity.
  - split; [exact Hc | apply H10; vm_compute; reflexivity].
Defined.

(** The aggressive scenario: an accumulated loss of 10.0 entering a
    recovery step gives the stake [round(10 * 1.15 / 1.20, 2) = 9.58]. *)
Example aggressive_recovery_from_10 :
  decide (profit_pct "agressivo") 2 (F64.of_Z 10) = (U4, F64.lit 958 2).
Proof. vm_compute; reflexivity. Qed.

(** ** The loop *)

Lemma last_cons {A : Type} (l : list A) (a d : A) :
  last (a :: l) d = last l a.
Proof.
  revert a d; induction l as [ | b l IH]; intros a d; [reflexivity | ].
  change (last (a :: b :: l) d) with (last (b :: l) d).
  rewrite (IH b d), (IH b a); reflexivity.
Qed.

Lemma Forall_firstn_of {A : Type} (P : A -> Prop) (k : nat) (l : list A) :
  Forall P l -> Forall P (firstn k l).
Proof.
  intros H; revert k; induction H as [ | x l Hx Hl IH]; intros [ | k]; simpl;
    constructor; auto.
Qed.

Lemma trace_length (pct : f64) (steps : list nat) (st : State) :
  List.length (trace pct steps st) = List.length steps.
Proof.
  revert st; induction steps as [ | i rest IH]; intros st; simpl; auto.
Qed.

(** A session's ledger is a prefix of the ledger of the unstopped
    session, and its final state is the state after the last entry. *)
Lemma run_prefix (stop_loss pct : f64) (steps : list nat) :
  forall (st : State) (hist : list Entry),
  exists k,
    history (run stop_loss pct steps st hist)
      = hist ++ map snd (firstn k (trace pct steps st))
    /\ final (run stop_loss pct steps st hist)
      = last (map fst (firstn k (trace pct steps st))) st.
Proof.
  induction steps as [ | i rest IH]; intros st hist.
  - exists 0%nat; simpl; rewrite app_nil_r; auto.
  - cbn [run trace]. destruct (step pct i st) as [st' entry] eqn:E.
    cbn [fst]. destruct (stop_hit stop_loss st').
    + exists 1%nat; auto.
    + destruct (IH st' (hist ++ [entry])) as (k & Hh & Hf).
      exists (S k). cbn [firstn map fst snd].
      rewrite Hh, Hf, <- app_assoc, last_cons; auto.
Qed.

(** What the loop leaves behind, by the way it was left. *)
Lemma run_stop (stop_loss pct : f64) (steps : list nat) :
  forall (st : State) (hist : list Entry),
    Forall (fun e => crossed stop_loss e = false) hist ->
    let s := run stop_loss pct steps st hist in
    (status s = StoppedOut
     /\ exists h e,
          history s = h ++ [e]
          /\ Forall (fun e => crossed stop_loss e = false) h
          /\ crossed stop_loss e = true
          /\ stop_step s = Some (e_step e)
          /\ total_invested s = Some (F64.abs (e_balance e)))
    \/ (status s = MaxStepsReached
        /\ Forall (fun e => crossed stop_loss e = false) (history s)
        /\ stop_step s = None
        /\ total_invested s = None).
Proof.
  induction steps as [ | i rest IH]; intros st hist Hh; simpl.
  - right; auto.
  - unfold step.
    destruct (decide pct (loss_streak st) (accumulated_loss st)) as [c k].
    set (st' := apply_loss st k).
    set (entry := mkEntry i c k (balance st') (accumulated_loss st')).
    destruct (stop_hit stop_loss st') eqn:Hs; simpl.
    + left; split; [reflexivity | ].
      exists hist, entry; repeat split; auto.
    + apply IH. apply Forall_app; split; [exact Hh | ].
      constructor; [exact Hs | constructor].
Qed.

Lemma last_in_or_default {A : Type} (P : A -> Prop) (l : list A) (d : A) :
  P d -> Forall P l -> P (last l d).
Proof.
  intros Hd H; revert d Hd; induction H as [ | x l Hx Hl IH]; intros d Hd;
    [exact Hd | ].
  rewrite last_cons; apply IH; exact Hx.
Qed.

Lemma chain_at (R : Entry -> Entry -> Prop) (h1 h2 : list Entry)
    (e1 e2 : Entry) :
  chain R (h1 ++ e1 :: e2 :: h2) -> R e1 e2.
Proof.
  induction h1 as [ | a h1 IH]; simpl.
  - intros [H _]; exact H.
  - destruct (h1 ++ e1 :: e2 :: h2) eqn:E.
    + destruct h1; discriminate.
    + intros [_ H]; apply IH; exact H.
Qed.

(** The ledger of a session, as a prefix of the unstopped ledger of its
    mode. *)
Lemma simulate_prefix (stop_loss : f64) (mode : string) :
  exists k,
    history (simulate_apollo stop_loss mode)
      = map snd (firstn k (trace (profit_pct mode) step_range init_state))
    /\ final (simulate_apollo stop_loss mode)
      = last (map fst (firstn k (trace (profit_pct mode) step_range
                                       init_state))) init_state.
Proof.
  destruct (run_prefix stop_loss (profit_pct mode) step_range init_state [])
    as (k & Hh & Hf).
  exists k; split; assumption.
Qed.

(** *** The two unstopped ledgers, computed *)

(** Along any sequence of losses whose stakes are finite, states and
    entries keep [accumulated_loss == -balance]. *)
Lemma trace_keeps_mirror (pct : f64) (steps : list nat) :
  forall (st : State),
    mirrored (balance st) (accumulated_loss st) ->
    Forall (fun p : State * Entry => F64.is_finite (e_stake (snd p)) = true)
           (trace pct steps st) ->
    Forall (fun p : State * Entry =>
              mirrored (balance (fst p)) (accumulated_loss (fst p))
              /\ mirrored (e_balance (snd p)) (e_acc_loss (snd p)))
           (trace pct steps st).
Proof.
  induction steps as [ | i rest IH]; intros st Hm Hf; cbn [trace] in *.
  - constructor.
  - inversion Hf as [ | p l Hp Hl]; subst; clear Hf.
    revert Hp Hl IH; unfold step.
    destruct (decide pct (loss_streak st) (accumulated_loss st)) as [c k].
    cbn [fst snd e_stake]; intros Hk Hl IH.
    pose proof (loss_keeps_mirror _ _ k Hk Hm) as Hm'.
    constructor; [split; exact Hm' | ].
    apply IH; [exact Hm' | exact Hl].
Qed.

(** The stakes of the two unstopped ledgers are finite. *)
Lemma trace_stakes_finite (pct : f64) :
  pct = F64.lit 2 2 \/ pct = F64.lit 15 2 ->
  Forall (fun p : State * Entry => F64.is_finite (e_stake (snd p)) = true)
         (trace pct step_range init_state).
Proof.
  intros [-> | ->]; vm_compute; repeat constructor.
Qed.

Lemma trace_mirrored (pct : f64) :
  pct = F64.lit 2 2 \/ pct = F64.lit 15 2 ->
  Forall (fun p : State * Entry =>
            mirrored (balance (fst p)) (accumulated_loss (fst p))
            /\ mirrored (e_balance (snd p)) (e_acc_loss (snd p)))
         (trace pct step_range init_state).
Proof.
  intros H; apply trace_keeps_mirror;
    [reflexivity | apply trace_stakes_finite, H].
Qed.

(** The accumulated loss a session carries into its next step is always
    a number. *)
Lemma session_accumulated_loss_numeric (stop_loss : f64) (mode : string) :
  F64.is_nan (accumulated_loss init_state) = false
  /\ Forall (fun e => F64.is_nan (e_acc_loss e) = false)
            (history (simulate_apollo stop_loss mode)).
Proof.
  split; [reflexivity | ].
  destruct (simulate_prefix stop_loss mode) as (k & -> & _).
  apply Forall_map.
  eapply Forall_impl;
    [ | exact (Forall_firstn_of _ k _
                 (trace_mirrored _ (profit_pct_cases mode)))].
  intros p [_ Hp]; unfold mirrored in Hp.
  destruct (e_acc_loss (snd p)); try reflexivity; discriminate.
Qed.

Lemma trace_grows (pct : f64) :
  pct = F64.lit 2 2 \/ pct = F64.lit 15 2 ->
  chain (grows pct) (map snd (trace pct step_range init_state)).
Proof.
  intros [-> | ->]; vm_compute;
    repeat split; intros; try reflexivity; try discriminate.
Qed.

(** C2: in every session (all outcomes are losses),
    [accumulated_loss == -balance] holds in the initial zeroed state, after
    every step, and in the state the session ends in. *)
Theorem C2_accumulated_loss_mirrors_balance :
  forall (stop_loss : f64) (mode : string),
    let s := simulate_apollo stop_loss mode in
    F64.eqb (accumulated_loss init_state) (F64.neg (balance init_state)) = true
    /\ Forall (fun e => F64.eqb (e_acc_loss e) (F64.neg (e_balance e)) = true)
              (history s)
    /\ F64.eqb (accumulated_loss (final s)) (F64.neg (balance (final s)))
       = true.
Proof.
  intros stop_loss mode s.
  destruct (simulate_prefix stop_loss mode) as (k & Hh & Hf).
  pose proof (Forall_firstn_of _ k _
                (trace_mirrored _ (profit_pct_cases mode))) as H.
  split; [reflexivity | split].
  - subst s; rewrite Hh. apply Forall_map.
    eapply Forall_impl; [ | exact H]. intros p [_ Hp]; exact Hp.
  - subst s; rewrite Hf.
    apply (last_in_or_default
             (fun st => F64.eqb (accumulated_loss st) (F64.neg (balance st))
                        = true)); [reflexivity | ].
    apply Forall_map.
    eapply Forall_impl; [ | exact H]. intros p [Hp _]; exact Hp.
Qed.

(** C7: between two consecutive entries of any session's ledger, a
    recovery stake is the staking rule applied to the accumulated loss as
    the previous step left it, and a recovery stake is followed by a
    recovery stake that is strictly larger. *)
Theorem C7_recovery_stake_grows :
  forall (stop_loss : f64) (mode : string) (h1 h2 : list Entry)
         (e1 e2 : Entry),
    history (simulate_apollo stop_loss mode) = h1 ++ e1 :: e2 :: h2 ->
    (e_contract e2 = U4 ->
     e_stake e2 = recovery_stake (profit_pct mode) (e_acc_loss e1))
    /\ (e_contract e1 = U4 ->
        e_contract e2 = U4 /\ F64.ltb (e_stake e1) (e_stake e2) = true).
Proof.
  intros stop_loss mode h1 h2 e1 e2 Hh.
  destruct (simulate_prefix stop_loss mode) as (k & Hk & _).
  pose proof (trace_grows _ (profit_pct_cases mode)) as Hc.
  rewrite Hh in Hk; clear Hh.
  generalize dependent (trace (profit_pct mode) step_range init_state).
  intros tr Hk Hc.
  rewrite <- (firstn_skipn k tr), map_app, <- Hk, <- app_assoc in Hc.
  exact (chain_at _ h1 (h2 ++ map snd (skipn k tr)) e1 e2 Hc).
Qed.

Lemma C7_witness :
  let e3 := mkEntry 3 U4 (F64.lit 170 2) (F64.neg (F64.lit 370 2))
                    (F64.lit 370 2) in
  let e4 := mkEntry 4 U4 (F64.lit 315 2) (F64.neg (F64.lit 685 2))
                    (F64.lit 685 2) in
  e_stake e4 = recovery_stake (F64.lit 2 2) (F64.lit 370 2)
  /\ F64.ltb (e_stake e3) (e_stake e4) = true.
Proof.
  intros e3 e4.
  pose (s := simulate_apollo (F64.lit 500 1) "conservador").
  destruct (C7_recovery_stake_grows (F64.lit 500 1) "conservador"
              (firstn 2 (history s)) (skipn 4 (history s)) e3 e4)
    as (H1 & H2).
  - vm_compute; reflexivity.
  - split; [apply H1; reflexivity | apply H2; reflexivity].
Defined.

(** C5: the stop-loss test follows every step; as soon as an entry of a
    session has [abs(balance) >= stop_loss], that entry is the last of the
    ledger, the session is stopped out at that step and the total invested
    it reports is [abs(balance)]. *)
Theorem C5_stop_loss_ends_the_session :
  forall (stop_loss : f64) (mode : string) (e : Entry),
    let s := simulate_apollo stop_loss mode in
    In e (history s) ->
    F64.leb stop_loss (F64.abs (e_balance e)) = true ->
    status s = StoppedOut
    /\ (exists h, history s = h ++ [e])
    /\ stop_step s = Some (e_step e)
    /\ total_invested s = Some (F64.abs (e_balance e)).
Proof.
  intros stop_loss mode e s Hin Hc; subst s; unfold simulate_apollo in *.
  assert (Hne : forall l, Forall (fun e => crossed stop_loss e = false) l ->
                          ~ In e l).
  { intros l Hl Hi. rewrite Forall_forall in Hl. apply Hl in Hi.
    unfold crossed in Hi; congruence. }
  destruct (run_stop stop_loss (profit_pct mode) step_range init_state []
              (Forall_nil _))
    as [(Hst & h & e0 & Hh & Hfree & _ & Hstep & Htot)
       | (_ & Hfree & _)].
  - rewrite Hh in Hin. apply in_app_or in Hin.
    destruct Hin as [Hin | [-> | []]]; [destruct (Hne _ Hfree Hin) | ].
    repeat split; auto. exists h; exact Hh.
  - destruct (Hne _ Hfree Hin).
Qed.

Lemma C5_witness :
  let s := simulate_apollo (F64.lit 500 1) "conservador" in
  status s = StoppedOut /\ stop_step s = Some 8%nat.
Proof.
  destruct (C5_stop_loss_ends_the_session (F64.lit 500 1) "conservador"
              (mkEntry 8 U4 (S754_finite false 5187583820777390 (-47))
                       (S754_finite true 5644980657932206 (-46))
                       (S754_finite false 5644980657932206 (-46))))
    as (Hs & _ & Hk & _).
  - vm_compute. do 7 right; left; reflexivity.
  - vm_compute; reflexivity.
  - split; assumption.
Defined.

Lemma run_exhausted (stop_loss pct : f64) (steps : list nat) :
  forall (st : State) (hist : list Entry),
    status (run stop_loss pct steps st hist) = StoppedOut
    \/ history (run stop_loss pct steps st hist)
       = hist ++ map snd (trace pct steps st).
Proof.
  induction steps as [ | i rest IH]; intros st hist; cbn [run trace].
  - right; cbn [map history]; rewrite app_nil_r; reflexivity.
  - destruct (step pct i st) as [st' entry] eqn:E; cbn [fst].
    destruct (stop_hit stop_loss st').
    + left; reflexivity.
    + destruct (IH st' (hist ++ [entry])) as [H | H]; [left; exact H | ].
      right; rewrite H, <- app_assoc; reflexivity.
Qed.

Lemma trace_steps (pct : f64) (steps : list nat) :
  forall (st : State), map e_step (map snd (trace pct steps st)) = steps.
Proof.
  induction steps as [ | i rest IH]; intros st; cbn [trace map].
  - reflexivity.
  - rewrite IH; unfold step.
    destruct (decide pct (loss_streak st) (accumulated_loss st)); reflexivity.
Qed.

(** C3: the loop body runs at most 19 times in any session, never a
    twentieth: a session that is not stopped out has run exactly the steps
    1 to 19.  With a stop loss of one billion, in either mode, the ledger
    holds the steps 1 to 19 and the loop ends by exhaustion. *)
Theorem C3_loop_ends_after_step_19 :
  (forall (stop_loss : f64) (mode : string),
      let s := simulate_apollo stop_loss mode in
      (List.length (history s) <= 19)%nat
      /\ (status s = StoppedOut \/ map e_step (history s) = seq 1 19))
  /\ (let s := simulate_apollo (F64.of_Z 1000000000) "conservador" in
      map e_step (history s) = seq 1 19 /\ status s = MaxStepsReached)
  /\ (let s := simulate_apollo (F64.of_Z 1000000000) "agressivo" in
      map e_step (history s) = seq 1 19 /\ status s = MaxStepsReached).
Proof.
  split; [ | split; vm_compute; split; reflexivity].
  intros stop_loss mode s; subst s; split.
  - destruct (simulate_prefix stop_loss mode) as (k & -> & _).
    rewrite length_map, length_firstn, trace_length.
    change (List.length step_range) with 19%nat; lia.
  - unfold simulate_apollo.
    destruct (run_exhausted stop_loss (profit_pct mode) step_range
                init_state []) as [H | H]; [left; exact H | right].
    rewrite H; cbn [app]; apply trace_steps.
Qed.

(** C6: with stop loss 50.0 and mode 'conservador' the first three entries
    are stake 1.00 on U8, stake 1.00 on U8, and stake 1.70 on U4; the third
    step starts from an accumulated loss of 2.00, its target is 2.04, its
    stake is [round(2.04 / 1.20, 2)], and it leaves the balance at -3.70. *)
Theorem C6_conservative_scenario :
  let s := simulate_apollo (F64.lit 500 1) "conservador" in
  firstn 3 (history s)
  = [ mkEntry 1 U8 (F64.lit 100 2) (F64.neg (F64.lit 100 2)) (F64.lit 100 2);
      mkEntry 2 U8 (F64.lit 100 2) (F64.neg (F64.lit 200 2)) (F64.lit 200 2);
      mkEntry 3 U4 (F64.lit 170 2) (F64.neg (F64.lit 370 2)) (F64.lit 370 2) ]
  /\ base_stake = F64.lit 100 2
  /\ F64.mul (F64.lit 200 2) (F64.add (F64.of_Z 1) (profit_pct "conservador"))
     = F64.lit 204 2
  /\ F64.round2 (F64.div (F64.lit 204 2) payout_u4) = F64.lit 170 2.
Proof.
  vm_compute; repeat split; reflexivity.
Qed.

(** ** What the code does not have: a win, a rejected configuration *)

Lemma run_streak (stop_loss pct : f64) (steps : list nat) :
  forall (st : State) (hist : list Entry),
    (loss_streak (final (run stop_loss pct steps st hist)) + List.length hist
     = loss_streak st + List.length (history (run stop_loss pct steps st hist)))%nat.
Proof.
  induction steps as [ | i rest IH]; intros st hist; cbn [run].
  - reflexivity.
  - unfold step.
    destruct (decide pct (loss_streak st) (accumulated_loss st)) as [c k].
    destruct (stop_hit stop_loss (apply_loss st k)); cbn [final history].
    + rewrite length_app; simpl; lia.
    + specialize (IH (apply_loss st k)
                     (hist ++ [mkEntry i c k (balance (apply_loss st k))
                                 (accumulated_loss (apply_loss st k))])).
      rewrite length_app in IH; simpl in IH.
      simpl. lia.
Qed.

(** C8, as the code has it: every step is a loss.  The balance goes down
    by the stake, the accumulated loss goes up by the stake and the streak
    goes up by one, whatever the state; and a session ends with a streak
    equal to the number of steps it took. *)
Theorem C8_every_step_is_a_loss :
  (forall (pct : f64) (i : nat) (st : State),
      let stake := snd (decide pct (loss_streak st) (accumulated_loss st)) in
      fst (step pct i st)
      = mkState (F64.sub (balance st) stake)
                (S (loss_streak st))
                (F64.add (accumulated_loss st) stake))
  /\ (forall (stop_loss : f64) (mode : string),
         let s := simulate_apollo stop_loss mode in
         loss_streak (final s) = List.length (history s)).
Proof.
  split.
  - intros pct i st; unfold step.
    destruct (decide pct (loss_streak st) (accumulated_loss st)); reflexivity.
  - intros stop_loss mode s; subst s; unfold simulate_apollo.
    pose proof (run_streak stop_loss (profit_pct mode) step_range
                  init_state []) as H.
    change (List.length (@nil Entry)) with 0%nat in H.
    change (loss_streak init_state) with 0%nat in H.
    rewrite Nat.add_0_r in H; exact H.
Qed.

(** No step of the code resets the streak: the first step of a session
    already leaves it at 1 with the balance at -1.00, and no state and no
    margin give a step that ends with a streak of 0. *)
Lemma C8_no_win_transition :
  fst (step (F64.lit 2 2) 1 init_state)
  = mkState (F64.neg (F64.lit 100 2)) 1 (F64.lit 100 2)
  /\ ~ (exists (pct : f64) (i : nat) (st : State),
           loss_streak (fst (step pct i st)) = 0%nat).
Proof.
  split; [vm_compute; reflexivity | ].
  intros (pct & i & st & H); revert H; unfold step.
  destruct (decide pct (loss_streak st) (accumulated_loss st)); discriminate.
Qed.

(** The first pass through the loop does not depend on the inputs. *)
Lemma first_step (pct : f64) :
  step pct 1 init_state
  = (mkState (F64.neg base_stake) 1 base_stake,
     mkEntry 1 U8 base_stake (F64.neg base_stake) base_stake).
Proof. vm_compute; reflexivity. Qed.

Lemma nonpositive_below_base_stake (x : f64) :
  F64.leb x (F64.of_Z 0) = true ->
  F64.leb x (F64.abs (F64.neg base_stake)) = true.
Proof.
  assert (H0 : F64.of_Z 0 = S754_zero false) by reflexivity.
  assert (H1 : exists m e, F64.abs (F64.neg base_stake) = S754_finite false m e)
    by (do 2 eexists; vm_compute; reflexivity).
  destruct H1 as (m1 & e1 & ->); rewrite H0.
  unfold F64.leb, SFleb, SFcompare.
  destruct x as [s | s | | s m e]; try discriminate; try reflexivity;
    destruct s; try discriminate; reflexivity.
Qed.

(** C9, as the code has it: no configuration is rejected.  Whatever the
    stop loss and the mode, the session is run and its first entry is a
    stake of [base_stake] on U8; when the stop loss is at most zero the
    session consists of that single step and is stopped out, reporting
    [base_stake] as the total invested. *)
Theorem C9_no_configuration_is_rejected :
  forall (stop_loss : f64) (mode : string),
    let s := simulate_apollo stop_loss mode in
    let first := mkEntry 1 U8 base_stake (F64.neg base_stake) base_stake in
    (exists rest, history s = first :: rest)
    /\ (F64.leb stop_loss (F64.of_Z 0) = true ->
        history s = [first] /\ status s = StoppedOut
        /\ total_invested s = Some base_stake).
Proof.
  intros stop_loss mode s first; subst s; unfold simulate_apollo.
  change step_range with (1%nat :: seq 2 18).
  cbn [run]; rewrite first_step; fold first.
  unfold stop_hit; cbn [balance app].
  split.
  - destruct (F64.leb stop_loss _).
    + exists []; reflexivity.
    + destruct (run_prefix stop_loss (profit_pct mode) (seq 2 18)
                  (mkState (F64.neg base_stake) 1 base_stake) [first])
        as (k & -> & _).
      eexists; reflexivity.
  - intros H; rewrite (nonpositive_below_base_stake _ H).
    repeat split.
Qed.

Lemma C9_witness :
  let s := simulate_apollo (F64.of_Z 0) "conservador" in
  List.length (history s) = 1%nat /\ status s = StoppedOut.
Proof.
  destruct (C9_no_configuration_is_rejected (F64.of_Z 0) "conservador")
    as (_ & H).
  destruct H as (Hh & Hs & _); [reflexivity | ].
  split; [rewrite Hh; reflexivity | exact Hs].
Defined.

(** A stop loss of -1 and a mode that does not exist are accepted: the
    first bet is placed and lost before the session stops. *)
Lemma C9_negative_stop_loss_still_bets :
  let s := simulate_apollo (F64.of_Z (-1)) "desconhecido" in
  history s = [mkEntry 1 U8 (F64.lit 100 2) (F64.neg (F64.lit 100 2))
                       (F64.lit 100 2)]
  /\ status s = StoppedOut
  /\ total_invested s = Some (F64.lit 100 2).
Proof. vm_compute; repeat split; reflexivity. Qed.

(** C10: any mode other than the exact string 'conservador' selects the
    margin 0.15, and the session runs with it as it does for any other
    such string; no mode is refused. *)
Theorem C10_other_modes_are_aggressive :
  forall (mode : string),
    mode <> "conservador"%string ->
    profit_pct mode = F64.lit 15 2
    /\ forall (stop_loss : f64),
         simulate_apollo stop_loss mode
         = run stop_loss (F64.lit 15 2) step_range init_state [].
Proof.
  intros mode H.
  assert (Hp : profit_pct mode = F64.lit 15 2).
  { unfold profit_pct, conservador.
    destruct (String.eqb_spec mode "conservador"); [contradiction | reflexivity]. }
  split; [exact Hp | ].
  intros stop_loss; unfold simulate_apollo; rewrite Hp; reflexivity.
Qed.

Lemma C10_witness :
  profit_pct "Conservador" = F64.lit 15 2
  /\ profit_pct "" = F64.lit 15 2
  /\ profit_pct "conservador" = F64.lit 2 2.
Proof.
  split; [ | split; [ | reflexivity] ].
  - apply (C10_other_modes_are_aggressive "Conservador"); discriminate.
  - apply (C10_other_modes_are_aggressive ""); discriminate.
Defined.

(** ** Further properties of the sessions *)

(** [<=] on floats is transitive. *)
Lemma leb_trans (x y z : f64) :
  F64.leb x y = true -> F64.leb y z = true -> F64.leb x z = true.
Proof.
  unfold F64.leb, SFleb, SFcompare.
  destruct x as [sx | sx | | sx mx ex], y as [sy | sy | | sy my ey],
           z as [sz | sz | | sz mz ez];
    try discriminate; try reflexivity;
    try (destruct sx; try discriminate; try reflexivity;
         destruct sy; try discriminate; try reflexivity;
         destruct sz; try discriminate; reflexivity);
    try (destruct sx, sy; try discriminate; reflexivity);
    try (destruct sy, sz; try discriminate; reflexivity);
    try (destruct sx, sz; try discriminate; reflexivity).
  all: rewrite !Pos.compare_cont_spec; simpl.
  all: destruct sx, sy, sz; try discriminate; try reflexivity.
  all: destruct (Z.compare_spec ex ey), (Z.compare_spec ey ez),
         (Z.compare_spec ex ez); try lia; try discriminate; try reflexivity;
       subst;
       destruct (Pos.compare_spec mx my), (Pos.compare_spec my mz),
         (Pos.compare_spec mx mz); try lia; try discriminate; try reflexivity.
Qed.

(** A property of all entries of the two unstopped ledgers holds of all
    entries of every session. *)
Lemma session_forall (P : f64 -> Entry -> Prop) :
  (forall pct, pct = F64.lit 2 2 \/ pct = F64.lit 15 2 ->
               Forall (P pct) (map snd (trace pct step_range init_state))) ->
  forall (stop_loss : f64) (mode : string),
    Forall (P (profit_pct mode)) (history (simulate_apollo stop_loss mode)).
Proof.
  intros H stop_loss mode.
  destruct (simulate_prefix stop_loss mode) as (k & -> & _).
  rewrite <- firstn_map. apply Forall_firstn_of, H, profit_pct_cases.
Qed.

(** The same for a relation between consecutive entries. *)
Lemma session_chain (R : f64 -> Entry -> Entry -> Prop) :
  (forall pct, pct = F64.lit 2 2 \/ pct = F64.lit 15 2 ->
               chain (R pct) (map snd (trace pct step_range init_state))) ->
  forall (stop_loss : f64) (mode : string) (h1 h2 : list Entry)
         (e1 e2 : Entry),
    history (simulate_apollo stop_loss mode) = h1 ++ e1 :: e2 :: h2 ->
    R (profit_pct mode) e1 e2.
Proof.
  intros H stop_loss mode h1 h2 e1 e2 Hh.
  destruct (simulate_prefix stop_loss mode) as (k & Hk & _).
  pose proof (H _ (profit_pct_cases mode)) as Hc.
  rewrite Hh in Hk; clear Hh.
  generalize dependent (trace (profit_pct mode) step_range init_state).
  intros tr Hk Hc.
  rewrite <- (firstn_skipn k tr), map_app, <- Hk, <- app_assoc in Hc.
  exact (chain_at _ h1 (h2 ++ map snd (skipn k tr)) e1 e2 Hc).
Qed.

Lemma firstn_of_seq (k a n : nat) :
  firstn k (seq a n) = seq a (Nat.min k n).
Proof.
  revert a n; induction k as [ | k IH]; intros a [ | n]; simpl; auto.
  rewrite IH; reflexivity.
Qed.

(** X1: the entries of a ledger are numbered 1, 2, 3, ... without gap or
    repetition, whatever the stop loss and the mode. *)
Theorem steps_are_consecutive :
  forall (stop_loss : f64) (mode : string),
    let s := simulate_apollo stop_loss mode in
    map e_step (history s) = seq 1 (List.length (history s)).
Proof.
  intros stop_loss mode s; subst s.
  destruct (simulate_prefix stop_loss mode) as (k & -> & _).
  rewrite length_map, length_firstn, trace_length.
  rewrite <- !firstn_map, trace_steps.
  unfold step_range; rewrite firstn_of_seq, length_seq; reflexivity.
Qed.

(** X2: in every session the first two bets are on U8 at [base_stake] and
    every later bet is on U4: the recovery contract comes in at the third
    bet and is never left. *)
Theorem contract_switches_at_third_bet :
  forall (stop_loss : f64) (mode : string),
    Forall (fun e =>
              e_contract e = (if (e_step e <=? 2)%nat then U8 else U4)
              /\ (if (e_step e <=? 2)%nat
                  then e_stake e = base_stake else True))
           (history (simulate_apollo stop_loss mode)).
Proof.
  intros stop_loss mode.
  apply (session_forall
           (fun _ e =>
              e_contract e = (if (e_step e <=? 2)%nat then U8 else U4)
              /\ (if (e_step e <=? 2)%nat
                  then e_stake e = base_stake else True))).
  intros pct [-> | ->]; vm_compute; repeat constructor.
Qed.

(** X3: a session is stopped out only by an entry that reached the stop
    loss, and at the first such entry: when the status is [StoppedOut] the
    last entry has [abs(balance) >= stop_loss] and no earlier entry has;
    when the range was exhausted no entry has, and nothing is reported. *)
Theorem stop_is_never_premature :
  forall (stop_loss : f64) (mode : string),
    let s := simulate_apollo stop_loss mode in
    match status s with
    | StoppedOut =>
        exists h e,
          history s = h ++ [e]
          /\ Forall (fun e' => F64.leb stop_loss (F64.abs (e_balance e'))
                               = false) h
          /\ F64.leb stop_loss (F64.abs (e_balance e)) = true
          /\ stop_step s = Some (e_step e)
          /\ total_invested s = Some (F64.abs (e_balance e))
    | MaxStepsReached =>
        Forall (fun e' => F64.leb stop_loss (F64.abs (e_balance e')) = false)
               (history s)
        /\ stop_step s = None /\ total_invested s = None
    end.
Proof.
  intros stop_loss mode s; subst s; unfold simulate_apollo.
  destruct (run_stop stop_loss (profit_pct mode) step_range init_state []
              (Forall_nil _)) as [(-> & H) | (-> & H)]; exact H.
Qed.

Lemma run_monotone (lo hi pct : f64) (steps : list nat) :
  F64.leb lo hi = true ->
  forall (st : State) (hist : list Entry),
  exists rest,
    history (run hi pct steps st hist)
    = history (run lo pct steps st hist) ++ rest.
Proof.
  intros Hle; induction steps as [ | i rest IH]; intros st hist; cbn [run].
  - exists []; rewrite app_nil_r; reflexivity.
  - destruct (step pct i st) as [st' entry].
    destruct (stop_hit lo st') eqn:Hlo.
    + destruct (stop_hit hi st').
      * exists []; rewrite app_nil_r; reflexivity.
      * destruct (run_prefix hi pct rest st' (hist ++ [entry]))
          as (k & -> & _).
        eexists; reflexivity.
    + destruct (stop_hit hi st') eqn:Hhi; [ | apply IH].
      unfold stop_hit in Hlo, Hhi.
      rewrite (leb_trans _ _ _ Hle Hhi) in Hlo; discriminate.
Qed.

(** X4: raising the stop loss only lengthens the session: with
    [lo <= hi], the ledger under [lo] is a prefix of the ledger under [hi]
    for the same mode; no bet already placed changes. *)
Theorem higher_stop_loss_extends_the_ledger :
  forall (lo hi : f64) (mode : string),
    F64.leb lo hi = true ->
    exists rest,
      history (simulate_apollo hi mode)
      = history (simulate_apollo lo mode) ++ rest.
Proof.
  intros lo hi mode H; unfold simulate_apollo.
  apply run_monotone, H.
Qed.

Lemma higher_stop_loss_witness :
  exists rest,
    history (simulate_apollo (F64.of_Z 100) "conservador")
    = history (simulate_apollo (F64.of_Z 50) "conservador") ++ rest.
Proof.
  apply (higher_stop_loss_extends_the_ledger (F64.of_Z 50) (F64.of_Z 100)
           "conservador").
  reflexivity.
Defined.

(** X5: a stop loss that is NaN or plus infinity never stops a session:
    the comparison [abs(balance) >= stop_loss] is false after every step
    and all 19 steps are run. *)
Theorem unreachable_stop_loss_runs_all_steps :
  forall (stop_loss : f64) (mode : string),
    stop_loss = S754_nan \/ stop_loss = S754_infinity false ->
    let s := simulate_apollo stop_loss mode in
    status s = MaxStepsReached
    /\ map e_step (history s) = seq 1 19
    /\ total_invested s = None.
Proof.
  intros stop_loss mode H s; subst s; unfold simulate_apollo.
  destruct (profit_pct_cases mode) as [-> | ->], H as [-> | ->];
    vm_compute; repeat split; reflexivity.
Qed.

Lemma unreachable_stop_loss_witness :
  status (simulate_apollo S754_nan "conservador") = MaxStepsReached.
Proof.
  apply (unreachable_stop_loss_runs_all_steps S754_nan "conservador").
  left; reflexivity.
Defined.

Lemma run_sums (stop_loss pct : f64) (steps : list nat) :
  forall (st : State) (hist : list Entry),
  exists new,
    history (run stop_loss pct steps st hist) = hist ++ new
    /\ accumulated_loss (final (run stop_loss pct steps st hist))
       = fold_left F64.add (map e_stake new) (accumulated_loss st)
    /\ balance (final (run stop_loss pct steps st hist))
       = fold_left F64.sub (map e_stake new) (balance st).
Proof.
  induction steps as [ | i rest IH]; intros st hist; cbn [run].
  - exists []; rewrite app_nil_r; auto.
  - unfold step.
    destruct (decide pct (loss_streak st) (accumulated_loss st)) as [c k].
    set (st' := apply_loss st k).
    set (entry := mkEntry i c k (balance st') (accumulated_loss st')).
    destruct (stop_hit stop_loss st').
    + exists [entry]; auto.
    + destruct (IH st' (hist ++ [entry])) as (new & Hh & Ha & Hb).
      exists (entry :: new).
      rewrite Hh, Ha, Hb, <- app_assoc; auto.
Qed.

Lemma run_total (stop_loss pct : f64) (steps : list nat) :
  forall (st : State) (hist : list Entry),
    let s := run stop_loss pct steps st hist in
    match total_invested s with
    | Some x => x = F64.abs (balance (final s)) /\ status s = StoppedOut
    | None => status s = MaxStepsReached
    end.
Proof.
  induction steps as [ | i rest IH]; intros st hist; cbn [run].
  - reflexivity.
  - destruct (step pct i st) as [st' entry].
    destruct (stop_hit stop_loss st'); [split; reflexivity | apply IH].
Qed.

Lemma trace_abs_balance (pct : f64) :
  pct = F64.lit 2 2 \/ pct = F64.lit 15 2 ->
  Forall (fun p : State * Entry =>
            F64.abs (balance (fst p)) = accumulated_loss (fst p))
         (trace pct step_range init_state).
Proof.
  intros [-> | ->]; vm_compute; repeat constructor.
Qed.

(** X6: the loss a session ends with is the sum of its stakes:
    [accumulated_loss] is the stakes of the ledger added up in order from
    0.0, [abs(balance)] is that same float, and the total invested
    reported by a stopped session is that sum. *)
Theorem total_invested_is_the_sum_of_stakes :
  forall (stop_loss : f64) (mode : string),
    let s := simulate_apollo stop_loss mode in
    let sum := fold_left F64.add (map e_stake (history s)) (F64.of_Z 0) in
    accumulated_loss (final s) = sum
    /\ F64.abs (balance (final s)) = sum
    /\ match total_invested s with
       | Some x => x = sum /\ status s = StoppedOut
       | None => status s = MaxStepsReached
       end.
Proof.
  intros stop_loss mode s sum; subst s sum.
  assert (Ha : accumulated_loss (final (simulate_apollo stop_loss mode))
               = fold_left F64.add
                   (map e_stake (history (simulate_apollo stop_loss mode)))
                   (F64.of_Z 0)).
  { unfold simulate_apollo.
    destruct (run_sums stop_loss (profit_pct mode) step_range init_state [])
      as (new & -> & -> & _); reflexivity. }
  assert (Hb : F64.abs (balance (final (simulate_apollo stop_loss mode)))
               = accumulated_loss (final (simulate_apollo stop_loss mode))).
  { destruct (simulate_prefix stop_loss mode) as (k & _ & ->).
    apply (last_in_or_default
             (fun st => F64.abs (balance st) = accumulated_loss st));
      [reflexivity | ].
    apply Forall_map, Forall_firstn_of, trace_abs_balance, profit_pct_cases. }
  split; [exact Ha | split; [rewrite Hb; exact Ha | ] ].
  pose proof (run_total stop_loss (profit_pct mode) step_range init_state [])
    as Ht; fold (simulate_apollo stop_loss mode) in Ht; cbv zeta in Ht.
  destruct (total_invested (simulate_apollo stop_loss mode)); [ | exact Ht].
  destruct Ht as [-> Hs]; split; [rewrite Hb; exact Ha | exact Hs].
Qed.

Lemma run_length (stop_loss pct : f64) (steps : list nat) :
  forall (st : State) (hist : list Entry),
    List.length (history (run stop_loss pct steps st hist))
    = (List.length hist
       + len_until stop_loss (map snd (trace pct steps st)))%nat.
Proof.
  induction steps as [ | i rest IH]; intros st hist;
    cbn [run trace map len_until].
  - cbn [history]; lia.
  - unfold crossed, stop_hit, step.
    destruct (decide pct (loss_streak st) (accumulated_loss st)) as [c k].
    cbn [fst snd e_balance].
    destruct (F64.leb stop_loss (F64.abs (balance (apply_loss st k)))).
    + cbn [history]; rewrite length_app; reflexivity.
    + rewrite IH, length_app; cbn [List.length]; lia.
Qed.

(** A ledger whose balances are at least as deep entry by entry reaches
    any stop loss no later. *)
Lemma len_until_dominated (stop_loss : f64) (deep shallow : list Entry) :
  Forall2 (fun d s => F64.leb (F64.abs (e_balance s)) (F64.abs (e_balance d))
                      = true) deep shallow ->
  (len_until stop_loss deep <= len_until stop_loss shallow)%nat.
Proof.
  induction 1 as [ | d s deep shallow Hds Hrest IH]; cbn [len_until].
  - lia.
  - unfold crossed at 1 2.
    destruct (F64.leb stop_loss (F64.abs (e_balance d))) eqn:Hd.
    + destruct (F64.leb stop_loss (F64.abs (e_balance s))); lia.
    + destruct (F64.leb stop_loss (F64.abs (e_balance s))) eqn:Hs; [ | lia].
      rewrite (leb_trans _ _ _ Hs Hds) in Hd; discriminate.
Qed.

Lemma nth_error_firstn_some {A : Type} (k i : nat) (l : list A) (a : A) :
  nth_error (firstn k l) i = Some a -> nth_error l i = Some a.
Proof.
  revert i l; induction k as [ | k IH]; intros [ | i] [ | x l]; simpl;
    try discriminate; auto.
Qed.

Lemma Forall2_nth_error {A B : Type} (R : A -> B -> Prop) (la : list A)
    (lb : list B) :
  Forall2 R la lb ->
  forall (i : nat) (a : A) (b : B),
    nth_error la i = Some a -> nth_error lb i = Some b -> R a b.
Proof.
  induction 1 as [ | x y la lb Hxy Hrest IH]; intros [ | i] a b; simpl;
    try discriminate.
  - intros [= <-] [= <-]; exact Hxy.
  - apply IH.
Qed.

(** Step by step, the ledger of any mode bets at least as much and stands
    at least as deep as the ledger of 'conservador'. *)
Lemma trace_dominates_conservador (pct : f64) :
  pct = F64.lit 2 2 \/ pct = F64.lit 15 2 ->
  Forall2 (fun d s =>
             F64.leb (F64.abs (e_balance s)) (F64.abs (e_balance d)) = true
             /\ F64.leb (e_stake s) (e_stake d) = true)
          (map snd (trace pct step_range init_state))
          (map snd (trace (F64.lit 2 2) step_range init_state)).
Proof.
  intros [-> | ->]; vm_compute; repeat constructor.
Qed.

(** X7: for the same stop loss, no mode outlasts 'conservador': the
    session of any other mode has at most as many bets, and at every step
    both sessions reach it stakes at least as much and has lost at least
    as much. *)
Theorem conservador_lasts_longest :
  forall (stop_loss : f64) (mode : string),
    let s := simulate_apollo stop_loss mode in
    let c := simulate_apollo stop_loss "conservador" in
    (List.length (history s) <= List.length (history c))%nat
    /\ forall (i : nat) (es ec : Entry),
         nth_error (history s) i = Some es ->
         nth_error (history c) i = Some ec ->
         F64.leb (e_stake ec) (e_stake es) = true
         /\ F64.leb (F64.abs (e_balance ec)) (F64.abs (e_balance es)) = true.
Proof.
  intros stop_loss mode s c; subst s c.
  pose proof (trace_dominates_conservador _ (profit_pct_cases mode)) as Hd.
  split.
  - unfold simulate_apollo; rewrite !run_length.
    apply Nat.add_le_mono_l, len_until_dominated.
    eapply Forall2_impl; [ | exact Hd]. intros d e [H _]; exact H.
  - intros i es ec Hs Hc.
    destruct (simulate_prefix stop_loss mode) as (k & Hk & _).
    destruct (simulate_prefix stop_loss "conservador") as (k' & Hk' & _).
    rewrite Hk, <- firstn_map in Hs. rewrite Hk', <- firstn_map in Hc.
    apply nth_error_firstn_some in Hs, Hc.
    destruct (Forall2_nth_error _ _ _ Hd i es ec Hs Hc) as [Hb Hst].
    split; assumption.
Qed.

Lemma conservador_lasts_longest_witness :
  F64.leb (F64.lit 170 2) (F64.lit 192 2) = true
  /\ F64.leb (F64.abs (F64.neg (F64.lit 370 2)))
             (F64.abs (F64.neg (F64.lit 392 2))) = true.
Proof.
  apply (proj2 (conservador_lasts_longest (F64.of_Z 50) "agressivo") 2%nat
           (mkEntry 3 U4 (F64.lit 192 2) (F64.neg (F64.lit 392 2))
                    (F64.lit 392 2))
           (mkEntry 3 U4 (F64.lit 170 2) (F64.neg (F64.lit 370 2))
                    (F64.lit 370 2)));
    vm_compute; reflexivity.
Defined.

(** X8: the 0.35 floor is never what a session bets.  Every stake of every
    session is at least [base_stake], and every recovery stake is the
    rounded quotient itself, computed from the accumulated loss the
    previous entry left: the test [current_stake < 0.35] is false at every
    step taken. *)
Theorem floor_is_never_reached_in_a_session :
  forall (stop_loss : f64) (mode : string),
    let s := simulate_apollo stop_loss mode in
    Forall (fun e => F64.leb base_stake (e_stake e) = true) (history s)
    /\ forall (h1 h2 : list Entry) (e1 e2 : Entry),
         history s = h1 ++ e1 :: e2 :: h2 ->
         e_contract e2 = U4 ->
         e_stake e2 = recovery_raw (profit_pct mode) (e_acc_loss e1)
         /\ F64.ltb (recovery_raw (profit_pct mode) (e_acc_loss e1)) min_stake
            = false.
Proof.
  intros stop_loss mode s; subst s; split.
  - apply (session_forall
             (fun _ e => F64.leb base_stake (e_stake e) = true)).
    intros pct [-> | ->]; vm_compute; repeat constructor.
  - apply (session_chain
             (fun pct e1 e2 =>
                e_contract e2 = U4 ->
                e_stake e2 = recovery_raw pct (e_acc_loss e1)
                /\ F64.ltb (recovery_raw pct (e_acc_loss e1)) min_stake
                   = false)).
    intros pct [-> | ->]; vm_compute;
      repeat split; intros; try reflexivity; try discriminate.
Qed.

Lemma floor_is_never_reached_witness :
  F64.lit 315 2 = recovery_raw (F64.lit 2 2) (F64.lit 370 2)
  /\ F64.ltb (recovery_raw (F64.lit 2 2) (F64.lit 370 2)) min_stake = false.
Proof.
  pose (s := simulate_apollo (F64.lit 500 1) "conservador").
  apply (proj2 (floor_is_never_reached_in_a_session (F64.lit 500 1)
                  "conservador")
           (firstn 2 (history s)) (skipn 4 (history s))
           (mkEntry 3 U4 (F64.lit 170 2) (F64.neg (F64.lit 370 2))
                    (F64.lit 370 2))
           (mkEntry 4 U4 (F64.lit 315 2) (F64.neg (F64.lit 685 2))
                    (F64.lit 685 2)));
    vm_compute; reflexivity.
Defined.

(** X9: a session never shows a gain: the balance is negative after
    every step and strictly lower than after the step before, while the
    accumulated loss is strictly higher. *)
Theorem balance_only_goes_down :
  forall (stop_loss : f64) (mode : string),
    let s := simulate_apollo stop_loss mode in
    Forall (fun e => F64.ltb (e_balance e) (F64.of_Z 0) = true) (history s)
    /\ forall (h1 h2 : list Entry) (e1 e2 : Entry),
         history s = h1 ++ e1 :: e2 :: h2 ->
         F64.ltb (e_balance e2) (e_balance e1) = true
         /\ F64.ltb (e_acc_loss e1) (e_acc_loss e2) = true.
Proof.
  intros stop_loss mode s; subst s; split.
  - apply (session_forall
             (fun _ e => F64.ltb (e_balance e) (F64.of_Z 0) = true)).
    intros pct [-> | ->]; vm_compute; repeat constructor.
  - apply (session_chain
             (fun _ e1 e2 =>
                F64.ltb (e_balance e2) (e_balance e1) = true
                /\ F64.ltb (e_acc_loss e1) (e_acc_loss e2) = true)).
    intros pct [-> | ->]; vm_compute; repeat split.
Qed.

Lemma balance_only_goes_down_witness :
  F64.ltb (F64.neg (F64.lit 685 2)) (F64.neg (F64.lit 370 2)) = true
  /\ F64.ltb (F64.lit 370 2) (F64.lit 685 2) = true.
Proof.
  pose (s := simulate_apollo (F64.lit 500 1) "conservador").
  apply (proj2 (balance_only_goes_down (F64.lit 500 1) "conservador")
           (firstn 2 (history s)) (skipn 4 (history s))
           (mkEntry 3 U4 (F64.lit 170 2) (F64.neg (F64.lit 370 2))
                    (F64.lit 370 2))
           (mkEntry 4 U4 (F64.lit 315 2) (F64.neg (F64.lit 685 2))
                    (F64.lit 685 2))).
  vm_compute; reflexivity.
Defined.

(** Rounding a non-negative significand with the minus sign gives a
    result that is at most zero. *)
Lemma binary_round_aux_nonpositive (m e : Z) (l : location) :
  0 <= m ->
  F64.leb (binary_round_aux F64.prec F64.emax true m e l) (S754_zero false)
  = true.
Proof.
  intros H; unfold binary_round_aux.
  pose proof (shr_fexp_nonneg F64.prec F64.emax m e l H) as H1.
  destruct (shr_fexp F64.prec F64.emax m e l) as [mrs1 e1]; simpl in H1.
  pose proof (shr_fexp_nonneg F64.prec F64.emax _ e1 loc_Exact
                (round_nearest_even_nonneg _ (loc_of_shr_record mrs1) H1))
    as H2.
  destruct (shr_fexp F64.prec F64.emax _ e1 loc_Exact) as [mrs2 e2];
    simpl in H2.
  destruct (shr_m mrs2) as [ | p | p ]; try reflexivity; try lia.
  destruct (e2 <=? F64.emax - F64.prec); reflexivity.
Qed.

Lemma mul_nonpositive (x : f64) (m : positive) (e : Z) :
  F64.leb x (S754_zero false) = true ->
  F64.leb (F64.mul x (S754_finite false m e)) (S754_zero false) = true.
Proof.
  destruct x as [s | s | | s mx ex]; try discriminate.
  - reflexivity.
  - destruct s; [reflexivity | discriminate].
  - destruct s; [ | discriminate]. intros _.
    apply binary_round_aux_nonpositive; lia.
Qed.

Lemma div_nonpositive (x : f64) (m : positive) (e : Z) :
  F64.leb x (S754_zero false) = true ->
  F64.leb (F64.div x (S754_finite false m e)) (S754_zero false) = true.
Proof.
  destruct x as [s | s | | s mx ex]; try discriminate.
  - reflexivity.
  - destruct s; [reflexivity | discriminate].
  - destruct s; [ | discriminate]. intros _.
    unfold F64.div, SFdiv.
    pose proof (div_core_nonneg F64.prec F64.emax mx m ex e) as H.
    destruct (SFdiv_core_binary F64.prec F64.emax (Zpos mx) ex (Zpos m) e)
      as [[mz ez] lz]; simpl in H.
    apply binary_round_aux_nonpositive; exact H.
Qed.

Lemma round2_nonpositive (x : f64) :
  F64.leb x (S754_zero false) = true ->
  F64.leb (F64.round2 x) (S754_zero false) = true.
Proof.
  destruct x as [s | s | | s m e]; try discriminate; auto.
  destruct s; [ | discriminate]. intros _.
  unfold F64.round2.
  destruct (F64.round_half_even _ _) as [ | p | p]; try reflexivity.
  apply (div_nonpositive (S754_finite true p 0) 100 0); reflexivity.
Qed.

(** X10: an accumulated loss that is zero or negative always gets the
    minimum stake: in recovery the rule returns exactly 0.35 for it, in
    either mode, never a zero or negative stake. *)
Theorem nonpositive_loss_gets_minimum_stake :
  forall (mode : string) (streak : nat) (acc : f64),
    (2 <= streak)%nat ->
    F64.leb acc (F64.of_Z 0) = true ->
    decide (profit_pct mode) streak acc = (U4, F64.lit 35 2).
Proof.
  intros mode streak acc Hs Hacc.
  destruct streak as [ | [ | n] ]; try lia.
  cbn [decide]; f_equal.
  unfold recovery_stake.
  assert (Hr : F64.leb (recovery_raw (profit_pct mode) acc) (S754_zero false)
               = true).
  { unfold recovery_raw.
    destruct (growth_factor_finite mode) as (m & e & ->).
    destruct payout_u4_finite as (m' & e' & ->).
    apply round2_nonpositive, div_nonpositive, mul_nonpositive, Hacc. }
  assert (Hm : exists m e, min_stake = S754_finite false m e)
    by (do 2 eexists; vm_compute; reflexivity).
  destruct Hm as (m & e & Hm).
  replace (F64.ltb (recovery_raw (profit_pct mode) acc) min_stake) with true;
    [reflexivity | ].
  rewrite Hm; revert Hr.
  generalize (recovery_raw (profit_pct mode) acc); intros r.
  unfold F64.leb, F64.ltb, SFleb, SFltb, SFcompare.
  destruct r as [s | [ | ] | | [ | ] mr er]; intros Hr;
    first [reflexivity | discriminate Hr].
Qed.

Lemma nonpositive_loss_witness :
  decide (profit_pct "agressivo") 5 (F64.neg (F64.lit 250 2))
  = (U4, F64.lit 35 2).
Proof.
  apply (nonpositive_loss_gets_minimum_stake "agressivo" 5
           (F64.neg (F64.lit 250 2))); [lia | reflexivity].
Defined.

(** ** The printed rows *)

(** X11: every row a session prints is 72 characters long, so every
    field fits its column, and its balance column is its accumulated-loss
    column with a minus sign in front. *)
Theorem rows_are_aligned :
  forall (stop_loss : f64) (mode : string),
    Forall (fun e =>
              String.length (row_line e) = 72%nat
              /\ fmt_2f (e_balance e)
                 = String.append "-" (fmt_2f (e_acc_loss e)))
           (history (simulate_apollo stop_loss mode)).
Proof.
  intros stop_loss mode.
  apply (session_forall
           (fun _ e =>
              String.length (row_line e) = 72%nat
              /\ fmt_2f (e_balance e)
                 = String.append "-" (fmt_2f (e_acc_loss e)))).
  intros pct [-> | ->]; forall_by_evaluation.
Qed.

(** X12: the printed table adds up to the cent.  Every stake is exactly
    the double of its two-decimal display; from one row to the next the
    displayed accumulated loss grows by the displayed stake and the
    displayed balance falls by it, although the floats behind them are
    sums that are not always the double of a two-decimal amount. *)
Theorem printed_amounts_add_up :
  forall (stop_loss : f64) (mode : string),
    let s := simulate_apollo stop_loss mode in
    Forall (fun e => F64.lit (cents (e_stake e)) 2 = e_stake e) (history s)
    /\ forall (h1 h2 : list Entry) (e1 e2 : Entry),
         history s = h1 ++ e1 :: e2 :: h2 ->
         cents (e_acc_loss e2) = cents (e_acc_loss e1) + cents (e_stake e2)
         /\ cents (e_balance e2) = cents (e_balance e1) - cents (e_stake e2).
Proof.
  intros stop_loss mode s; subst s; split.
  - apply (session_forall
             (fun _ e => F64.lit (cents (e_stake e)) 2 = e_stake e)).
    intros pct [-> | ->]; forall_by_evaluation.
  - apply (session_chain
             (fun _ e1 e2 =>
                cents (e_acc_loss e2)
                = cents (e_acc_loss e1) + cents (e_stake e2)
                /\ cents (e_balance e2)
                   = cents (e_balance e1) - cents (e_stake e2))).
    intros pct [-> | ->]; vm_compute; repeat split.
Qed.

Lemma printed_amounts_add_up_witness :
  cents (F64.lit 685 2) = cents (F64.lit 370 2) + cents (F64.lit 315 2)
  /\ cents (F64.neg (F64.lit 685 2))
     = cents (F64.neg (F64.lit 370 2)) - cents (F64.lit 315 2).
Proof.
  pose (s := simulate_apollo (F64.lit 500 1) "conservador").
  apply (proj2 (printed_amounts_add_up (F64.lit 500 1) "conservador")
           (firstn 2 (history s)) (skipn 4 (history s))
           (mkEntry 3 U4 (F64.lit 170 2) (F64.neg (F64.lit 370 2))
                    (F64.lit 370 2))
           (mkEntry 4 U4 (F64.lit 315 2) (F64.neg (F64.lit 685 2))
                    (F64.lit 685 2))).
  vm_compute; reflexivity.
Defined.

(** X13: what the script prints when it is run.  The call
    [simulate_apollo()] prints eight rows, is stopped out at bet 8, and
    reports a total invested of 80.22 against a stop loss of 50.0: the
    limit is tested after the bet is lost, not before it is placed. *)
Theorem script_output :
  printed_rows script_run
  = [ "1   | U8         | 1.00       | LOSS       | -1.00        | 1.00        ";
      "2   | U8         | 1.00       | LOSS       | -2.00        | 2.00        ";
      "3   | U4         | 1.70       | LOSS       | -3.70        | 3.70        ";
      "4   | U4         | 3.15       | LOSS       | -6.85        | 6.85        ";
      "5   | U4         | 5.82       | LOSS       | -12.67       | 12.67       ";
      "6   | U4         | 10.77      | LOSS       | -23.44       | 23.44       ";
      "7   | U4         | 19.92      | LOSS       | -43.36       | 43.36       ";
      "8   | U4         | 36.86      | LOSS       | -80.22       | 80.22       "
    ]%string
  /\ status script_run = StoppedOut
  /\ stop_step script_run = Some 8%nat
  /\ option_map total_line (total_invested script_run)
     = Some "Total Investido: $80.22"%string.
Proof. vm_compute; repeat split; reflexivity. Qed.

(** X14: a stop loss of at most [base_stake] ends the session after its
    first bet; with any other stop loss, NaN included, a second bet is
    placed. *)
Theorem first_bet_decides_small_stop_losses :
  forall (stop_loss : f64) (mode : string),
    let s := simulate_apollo stop_loss mode in
    (F64.leb stop_loss base_stake = true ->
     List.length (history s) = 1%nat /\ status s = StoppedOut)
    /\ (F64.leb stop_loss base_stake = false ->
        (2 <= List.length (history s))%nat).
Proof.
  intros stop_loss mode s; subst s; unfold simulate_apollo.
  change step_range with (1%nat :: seq 2 18).
  assert (Hb : F64.abs (F64.neg base_stake) = base_stake)
    by (vm_compute; reflexivity).
  assert (Hs : stop_hit stop_loss (mkState (F64.neg base_stake) 1 base_stake)
               = F64.leb stop_loss base_stake)
    by (unfold stop_hit; cbn [balance]; rewrite Hb; reflexivity).
  cbn [run]; rewrite first_step, Hs.
  split; intros H; rewrite H.
  - split; reflexivity.
  - rewrite run_length; change (seq 2 18) with (2%nat :: seq 3 17).
    cbn [trace map len_until app List.length].
    destruct (crossed stop_loss _); lia.
Qed.

Lemma first_bet_witness :
  List.length (history (simulate_apollo (F64.lit 50 2) "agressivo")) = 1%nat
  /\ (2 <= List.length (history (simulate_apollo S754_nan "agressivo")))%nat.
Proof.
  split.
  - apply (proj1 (first_bet_decides_small_stop_losses (F64.lit 50 2)
                    "agressivo")); reflexivity.
  - apply (proj2 (first_bet_decides_small_stop_losses S754_nan "agressivo"));
      reflexivity.
Defined.
